(** * Quarter-cylinder mesh generator: the patch-type corrector and the builder

    A shallow embedding of [case/scripts/quarter_cylinder_mesh.py].

    Text is modelled as [string]; one [ascii] stands for one code point below
    256.  A file's content is the text that text-mode I/O hands to the
    program: decoding and the platform's newline translation belong to the
    I/O layer and are outside this model, so a line ends at a line feed. *)

From Stdlib Require Import ZArith NArith QArith Ascii String DecimalString.
From stdpp Require Import gmap strings list.

Local Open Scope string_scope.
Local Open Scope list_scope.
Local Open Scope Z_scope.

#[local] Arguments String.append !s1 s2 : simpl nomatch.

(** ** Python's [str] methods used by the script *)

Module Py.

Definition LF : ascii := "010"%char.

(** [str.isspace] on one character (code points below 256): the ASCII
    controls TAB..CR and FS..US, the space, NEL and the no-break space. *)
Definition isspace (c : ascii) : bool :=
  let n := N_of_ascii c in
  (((9 <=? n) && (n <=? 13)) || ((28 <=? n) && (n <=? 32))
   || (n =? 133) || (n =? 160))%N.

Fixpoint lstrip (s : string) : string :=
  match s with
  | EmptyString => EmptyString
  | String c s' => if isspace c then lstrip s' else s
  end.

Fixpoint rstrip (s : string) : string :=
  match s with
  | EmptyString => EmptyString
  | String c s' =>
      match rstrip s' with
      | EmptyString => if isspace c then EmptyString else String c EmptyString
      | r => String c r
      end
  end.

(** [s.strip()] *)
Definition strip (s : string) : string := rstrip (lstrip s).

(** [s.startswith(p)] *)
Fixpoint startswith (s p : string) {struct p} : bool :=
  match p with
  | EmptyString => true
  | String a p' =>
      match s with
      | EmptyString => false
      | String b s' => Ascii.eqb b a && startswith s' p'
      end
  end.

(** [s.find(sub)]: lowest index of an occurrence, [-1] when there is none. *)
Fixpoint find (s sub : string) : Z :=
  if startswith s sub then 0
  else match s with
       | EmptyString => -1
       | String _ s' => let r := find s' sub in if r <? 0 then -1 else r + 1
       end.

Fixpoint str_take (n : nat) (s : string) : string :=
  match n, s with
  | S n', String c s' => String c (str_take n' s')
  | _, _ => EmptyString
  end.

(** [s[:i]], a negative [i] counting from the end. *)
Definition slice_to (s : string) (i : Z) : string :=
  let n := Z.of_nat (String.length s) in
  let stop := if i <? 0 then Z.max 0 (n + i) else Z.min i n in
  str_take (Z.to_nat stop) s.

(** [str.lower] on one character: A..Z and the Latin-1 capitals. *)
Definition lower_char (c : ascii) : ascii :=
  let n := N_of_ascii c in
  if (((65 <=? n) && (n <=? 90))
      || ((192 <=? n) && (n <=? 222) && negb (n =? 215)))%N
  then ascii_of_N (n + 32) else c.

Fixpoint lower (s : string) : string :=
  match s with
  | EmptyString => EmptyString
  | String c s' => String (lower_char c) (lower s')
  end.

(** [f.readlines()]: the text cut after every line feed. *)
Fixpoint readlines (s : string) : list string :=
  match s with
  | EmptyString => []
  | String c s' =>
      if Ascii.eqb c LF then String c EmptyString :: readlines s'
      else match readlines s' with
           | [] => [String c EmptyString]
           | l :: ls => String c l :: ls
           end
  end.

(** What [f.writelines(lines)] leaves in the file. *)
Fixpoint joined (lines : list string) : string :=
  match lines with
  | [] => EmptyString
  | l :: ls => l +:+ joined ls
  end.

End Py.

Import Py.

(** ** Lines and texts *)

Definition nl : string := String LF "".

(** The text of a file given by its lines, each ended by a line feed. *)
Definition text_of (ls : list string) : string :=
  joined (map (fun l => l +:+ nl) ls).

(** The whitespace a line starts with: what [lstrip] removes. *)
Fixpoint lead (s : string) : string :=
  match s with
  | EmptyString => EmptyString
  | String c s' => if isspace c then String c (lead s') else EmptyString
  end.






(** ** The patch-type corrector *)

(** The four variables of the scanning loop of [enforce_patch_type]. *)
Record scan := Scan {
  in_patch : bool;
  seen_name : bool;
  changed : bool;
  updated : list string
}.

Definition scan_init : scan :=
  {| in_patch := false; seen_name := false; changed := false; updated := [] |}.

(** The replacement line, [f"{indent}type {patch_type};\n"] with
    [indent = line[: line.find("type")]]. *)
Definition rewritten (patch_type line : string) : string :=
  slice_to line (find line "type") +:+ "type " +:+ patch_type +:+ ";" +:+ String LF "".

(** The first [if] of the loop body: arming on the name, entering on a brace. *)
Definition enter (patch_name : string) (ip sn : bool) (stripped : string) : bool * bool :=
  if negb ip then
    if String.eqb stripped patch_name then (ip, true)
    else if sn && startswith stripped "{" then (true, false)
    else (ip, sn)
  else (ip, sn).

(** Does the loop body take its rewriting branch on [line]? *)
Definition hits (patch_name : string) (st : scan) (line : string) : bool :=
  let stripped := strip line in
  fst (enter patch_name (in_patch st) (seen_name st) stripped)
  && startswith stripped "type".

(** One iteration of [for line in lines]. *)
Definition scan_line (patch_name patch_type : string) (st : scan) (line : string) : scan :=
  let stripped := strip line in
  let '(ip, sn) := enter patch_name (in_patch st) (seen_name st) stripped in
  let '(line', ch) :=
    if ip && startswith stripped "type"
    then (rewritten patch_type line, true)
    else (line, changed st) in
  let ip' := if ip && startswith stripped "}" then false else ip in
  {| in_patch := ip'; seen_name := sn; changed := ch;
     updated := updated st ++ [line'] |}.

Definition scan_from (patch_name patch_type : string) (st : scan) (lines : list string) : scan :=
  foldl (scan_line patch_name patch_type) st lines.

Definition scan_lines (patch_name patch_type : string) (lines : list string) : scan :=
  scan_from patch_name patch_type scan_init lines.

(** The file system: the content of every file, and the journal of the
    write-backs performed so far (path and content written, oldest first). *)
Record disk := Disk {
  files : gmap string string;
  journal : list (string * string)
}.

Inductive exn :=
| FileNotFoundError (path : string)
| RuntimeError (msg : string).

Inductive outcome (A : Type) :=
| Returns (a : A)
| Raises (e : exn).
Arguments Returns {A} a.
Arguments Raises {A} e.

(** [with open(path, "w") as f: f.writelines(lines)] *)
Definition write_back (d : disk) (path : string) (lines : list string) : disk :=
  {| files := <[path := joined lines]> (files d);
     journal := journal d ++ [(path, joined lines)] |}.

Definition failure_message (patch_name patch_type blockmesh_path : string) : string :=
  "Failed to set patch '" +:+ patch_name +:+ "' type to '" +:+ patch_type
  +:+ "' in " +:+ blockmesh_path +:+ ".".

Definition enforce_patch_type (d : disk) (blockmesh_path patch_name patch_type : string)
  : disk * outcome unit :=
  match files d !! blockmesh_path with
  | None => (d, Raises (FileNotFoundError blockmesh_path))
  | Some text =>
      let st := scan_lines patch_name patch_type (readlines text) in
      let d' := write_back d blockmesh_path (updated st) in
      if negb (changed st)
      then (d', Raises (RuntimeError (failure_message patch_name patch_type blockmesh_path)))
      else (d', Returns tt)
  end.

(** *** Notions used to state what the scan does *)

(** What the loop appends for [line] when it is met in state [st]. *)
Definition emitted (patch_name patch_type : string) (st : scan) (line : string) : string :=
  if hits patch_name st line then rewritten patch_type line else line.


(** The processed lines end inside a block: a name line, then lines that do
    not start with an opening brace, then a line that does, then lines that
    do not start with a closing brace. *)
Definition inside_block (patch_name : string) (p : list string) : Prop :=
  exists a nm mid br body,
    p = a ++ nm :: mid ++ br :: body /\
    strip nm = patch_name /\
    Forall (fun l => startswith (strip l) "{" = false) mid /\
    startswith (strip br) "{" = true /\
    Forall (fun l => startswith (strip l) "}" = false) body.

(** The processed lines end after a name line that no brace has followed. *)
Definition after_name (patch_name : string) (p : list string) : Prop :=
  exists a nm mid,
    p = a ++ nm :: mid /\
    strip nm = patch_name /\
    Forall (fun l => startswith (strip l) "{" = false) mid.

(** What becomes of a line met inside a block. *)
Definition retype (patch_type line : string) : string :=
  if startswith (strip line) "type" then rewritten patch_type line else line.

(** ** The run driver: normalising the symmetry type *)

(** The scalars a YAML configuration can hold (floats, lists and mappings
    are left out). *)
Inductive value :=
| VNone
| VBool (b : bool)
| VInt (n : Z)
| VStr (s : string).

(** Python's truth value of a scalar. *)
Definition truthy (v : value) : bool :=
  match v with
  | VNone => false
  | VBool b => b
  | VInt n => negb (n =? 0)
  | VStr s => negb (String.eqb s "")
  end.

(** [a or b] *)
Definition py_or (a b : value) : value := if truthy a then a else b.

(** [str(v)] *)
Definition str (v : value) : string :=
  match v with
  | VNone => "None"
  | VBool true => "True"
  | VBool false => "False"
  | VInt n => NilZero.string_of_int (Z.to_int n)
  | VStr s => s
  end.

(** [cfg.get(key)] *)
Definition cfg_get (cfg : gmap string value) (key : string) : value :=
  default VNone (cfg !! key).

(** The two statements of [main] that compute [sym_type] from the
    configured value. *)
Definition normalize (configured : value) : value :=
  let sym_type := py_or configured (VStr "symmetry") in
  if String.eqb (lower (str sym_type)) "symmetryplane" then VStr "symmetry"
  else sym_type.

Definition main_sym_type (cfg : gmap string value) : value :=
  normalize (cfg_get cfg "symmetry_patch_type").

(** ** The builder *)

Definition vector : Type := Q * Q * Q.

(** A chop specification: the cell count and the optional grading. *)
Record chop := Chop {
  count : Z;
  end_size : option Q;
  c2c_expansion : option Q
}.

(** The requests [build_quarter_cylinder] makes of the mesh engine and of
    the operating system, in the order it makes them. *)
Inductive request :=
| QuarterCylinder (axis_point_1 axis_point_2 radius_point_1 : vector)
| chop_axial (c : chop)
| chop_radial (c : chop)
| chop_tangential (c : chop)
| set_start_patch (name : string)
| set_end_patch (name : string)
| set_outer_patch (name : string)
| set_symmetry_patch (name : string)
| mesh_add
| set_default_patch (name kind : string)
| makedirs (path : string)
| mesh_write (output_path : string) (debug_path : option string).

(** The external collaborators: [os.path.dirname], and what the engine's
    [Mesh.write] does to the file system for the requests made so far. *)
Record engine := Engine {
  dirname : string -> string;
  serialize : list request -> string -> option string -> disk -> disk
}.

(** The requests made before the mesh is written. *)
Definition prepared (E : engine) (length radius : Q)
    (axial_cells radial_cells tangential_cells : Z) (wall_thickness : option Q)
    (wall_patch symmetry_patch start_patch end_patch output_path : string)
  : list request :=
  [ QuarterCylinder (0, 0, 0)%Q (0, 0, length)%Q (radius, 0, 0)%Q;
    chop_axial (Chop axial_cells None None);
    match wall_thickness with
    | None => chop_radial (Chop radial_cells None None)
    | Some w => chop_radial (Chop radial_cells (Some w) (Some (12 # 10)%Q))
    end;
    chop_tangential (Chop tangential_cells None None);
    set_start_patch start_patch;
    set_end_patch end_patch;
    set_outer_patch wall_patch;
    set_symmetry_patch symmetry_patch;
    mesh_add;
    set_default_patch "default" wall_patch;
    makedirs (dirname E output_path) ].

(** [build_quarter_cylinder]: the requests made, the file system left, and
    the returned path or the exception of the corrector. *)
Definition build_quarter_cylinder (E : engine) (d : disk) (length radius : Q)
    (axial_cells radial_cells tangential_cells : Z) (wall_thickness : option Q)
    (wall_patch symmetry_patch symmetry_patch_type start_patch end_patch
       output_path : string)
    (debug_vtk : option string) : list request * disk * outcome string :=
  let made := prepared E length radius axial_cells radial_cells tangential_cells
                wall_thickness wall_patch symmetry_patch start_patch end_patch
                output_path in
  let d1 := serialize E made output_path debug_vtk d in
  let res := enforce_patch_type d1 output_path symmetry_patch symmetry_patch_type in
  (made ++ [mesh_write output_path debug_vtk], res.1,
   match res.2 with Returns _ => Returns output_path | Raises e => Raises e end).

Definition radial_chops (rs : list request) : list chop :=
  omap (fun r => match r with chop_radial c => Some c | _ => None end) rs.

Definition is_patch_assignment (r : request) : bool :=
  match r with
  | set_start_patch _ | set_end_patch _ | set_outer_patch _
  | set_symmetry_patch _ | set_default_patch _ _ => true
  | _ => false
  end.

(** ** Facts about the string operations *)

Section StringFacts.

Lemma lead_lstrip s : s = lead s +:+ lstrip s.
Proof.
  induction s as [|c s IH]; simpl; [reflexivity|].
  destruct (isspace c); simpl; [now f_equal | reflexivity].
Qed.


Lemma startswith_app s w p : startswith s p = true -> startswith (s +:+ w) p = true.
Proof.
  revert s; induction p as [|a p IH]; intros [|b s]; simpl; try easy.
  intros [-> H]%andb_true_iff. rewrite (IH _ H). now rewrite andb_true_r.
Qed.

Lemma rstrip_prefix s : exists w, s = rstrip s +:+ w.
Proof.
  induction s as [|c s [w IH]]; simpl; [now exists ""|].
  destruct (rstrip s) eqn:E.
  - destruct (isspace c); [now exists (String c s)|].
    exists s. simpl. reflexivity.
  - exists w. simpl. now rewrite IH at 1.
Qed.

Lemma startswith_strip s p : startswith (strip s) p = true -> startswith (lstrip s) p = true.
Proof.
  unfold strip. destruct (rstrip_prefix (lstrip s)) as [w Hw].
  intros H. rewrite Hw. now apply startswith_app.
Qed.

Lemma rstrip_cons c s : isspace c = false -> rstrip (String c s) = String c (rstrip s).
Proof. intros H. simpl. rewrite H. now destruct (rstrip s). Qed.

Lemma isspace_not_t c : isspace c = true -> Ascii.eqb c "t" = false.
Proof. intros H. destruct (Ascii.eqb_spec c "t"); [subst; discriminate | reflexivity]. Qed.

Lemma find_lead s :
  startswith (lstrip s) "type" = true -> find s "type" = Z.of_nat (String.length (lead s)).
Proof.
  induction s as [|c s IH]; [discriminate|].
  cbn [lstrip lead]. destruct (isspace c) eqn:Hc.
  - intros H. specialize (IH H).
    cbn [find startswith]. rewrite (isspace_not_t _ Hc). cbn [andb].
    fold (find s "type"). rewrite IH.
    destruct (Z.ltb_spec (Z.of_nat (String.length (lead s))) 0); [lia|].
    cbn [String.length]. lia.
  - intros H. unfold find. now rewrite H.
Qed.

Lemma str_take_app a b : str_take (String.length a) (a +:+ b) = a.
Proof. induction a; simpl; [now destruct b | congruence]. Qed.

Lemma str_length_app a b : String.length (a +:+ b) = (String.length a + String.length b)%nat.
Proof. induction a; simpl; congruence. Qed.

Lemma slice_to_lead s : slice_to s (Z.of_nat (String.length (lead s))) = lead s.
Proof.
  unfold slice_to.
  destruct (Z.ltb_spec (Z.of_nat (String.length (lead s))) 0); [lia|].
  assert (Hlen : (String.length (lead s) <= String.length s)%nat).
  { rewrite (lead_lstrip s) at 2. rewrite str_length_app. lia. }
  rewrite Z.min_l by lia. rewrite Nat2Z.id.
  rewrite (lead_lstrip s) at 2. apply str_take_app.
Qed.

(** On a line whose stripped content starts with the keyword, the new line
    is the old indentation followed by the attribute. *)
Lemma rewritten_lead pt line :
  startswith (strip line) "type" = true ->
  rewritten pt line = lead line +:+ "type " +:+ pt +:+ ";" +:+ String LF "".
Proof.
  intros H%startswith_strip. unfold rewritten.
  now rewrite (find_lead _ H), slice_to_lead.
Qed.

Lemma lstrip_lead_app l s : lstrip (lead l +:+ s) = lstrip s.
Proof.
  induction l as [|c l IH]; simpl; [reflexivity|].
  destruct (isspace c) eqn:E; simpl; [now rewrite E | reflexivity].
Qed.

Lemma lead_lead_app l c s : isspace c = false -> lead (lead l +:+ String c s) = lead l.
Proof.
  intros Hc. induction l as [|a l IH]; simpl; [now rewrite Hc|].
  destruct (isspace a) eqn:E; simpl; [now rewrite E, IH | now rewrite Hc].
Qed.

Lemma strip_rewritten l x :
  strip (lead l +:+ "type " +:+ x) = "type" +:+ rstrip (" " +:+ x).
Proof.
  unfold strip. rewrite lstrip_lead_app. cbn [String.append lstrip].
  change (isspace "t") with false. cbv iota.
  now rewrite !rstrip_cons by reflexivity.
Qed.

Lemma brace_not_type s : startswith s "{" = true -> startswith s "type" = false.
Proof.
  destruct s as [|a s]; [discriminate|]. simpl.
  destruct (Ascii.eqb_spec a "{"); [subst; reflexivity | discriminate].
Qed.

Lemma brace_not_close s : startswith s "{" = true -> startswith s "}" = false.
Proof.
  destruct s as [|a s]; [discriminate|]. simpl.
  destruct (Ascii.eqb_spec a "{"); [subst; reflexivity | discriminate].
Qed.

Lemma type_not_close s : startswith s "type" = true -> startswith s "}" = false.
Proof.
  destruct s as [|a s]; [discriminate|]. simpl.
  destruct (Ascii.eqb_spec a "t"); [subst; reflexivity | discriminate].
Qed.

(** *** Lines and files *)









End StringFacts.

(** ** Facts about the scanning loop *)

Section ScanFacts.

Variables patch_name patch_type : string.

Local Abbreviation step := (scan_line patch_name patch_type).
Local Abbreviation run := (scan_from patch_name patch_type).

Lemma run_app st l1 l2 : run st (l1 ++ l2) = run (run st l1) l2.
Proof. apply foldl_app. Qed.

Lemma run_snoc st ls l : run st (ls ++ [l]) = step (run st ls) l.
Proof. now rewrite run_app. Qed.

Lemma step_updated st l : updated (step st l) = updated st ++ [emitted patch_name patch_type st l].
Proof.
  unfold scan_line, emitted, hits.
  destruct (enter patch_name (in_patch st) (seen_name st) (strip l)) as [ip sn].
  cbn [fst]. now destruct (ip && startswith (strip l) "type").
Qed.

Lemma step_changed st l : changed (step st l) = hits patch_name st l || changed st.
Proof.
  unfold scan_line, hits.
  destruct (enter patch_name (in_patch st) (seen_name st) (strip l)) as [ip sn].
  cbn [fst]. now destruct (ip && startswith (strip l) "type").
Qed.

(** The rewriting branch is only taken inside a block entered earlier. *)
Lemma hits_in_patch st l :
  hits patch_name st l = true ->
  in_patch st = true /\ startswith (strip l) "type" = true.
Proof.
  unfold hits, enter. destruct (in_patch st); cbn [negb fst].
  - intros H. split; [reflexivity|]. exact H.
  - destruct (String.eqb (strip l) patch_name); [discriminate|].
    destruct (seen_name st); cbn [andb fst]; [|discriminate].
    destruct (startswith (strip l) "{") eqn:B; cbn [fst andb]; [|discriminate].
    now rewrite (brace_not_type _ B).
Qed.


(** *** One step, state by state *)

Lemma step_searching st l :
  in_patch st = false -> seen_name st = false -> strip l <> patch_name ->
  step st l = Scan false false (changed st) (updated st ++ [l]).
Proof.
  intros Hi Hs Hn. unfold scan_line, enter. rewrite Hi, Hs. cbn [negb andb].
  apply String.eqb_neq in Hn. now rewrite Hn.
Qed.

Lemma step_name st l :
  in_patch st = false -> strip l = patch_name ->
  step st l = Scan false true (changed st) (updated st ++ [l]).
Proof.
  intros Hi Hn. unfold scan_line, enter. rewrite Hi. cbn [negb].
  apply String.eqb_eq in Hn. now rewrite Hn.
Qed.

Lemma step_armed_wait st l :
  in_patch st = false -> seen_name st = true -> startswith (strip l) "{" = false ->
  step st l = Scan false true (changed st) (updated st ++ [l]).
Proof.
  intros Hi Hs Hb. unfold scan_line, enter. rewrite Hi, Hs, Hb. cbn [negb andb].
  now destruct (String.eqb (strip l) patch_name).
Qed.

Lemma step_armed_brace st l :
  in_patch st = false -> seen_name st = true ->
  strip l <> patch_name -> startswith (strip l) "{" = true ->
  step st l = Scan true false (changed st) (updated st ++ [l]).
Proof.
  intros Hi Hs Hn Hb. unfold scan_line, enter. rewrite Hi, Hs, Hb. cbn [negb andb].
  apply String.eqb_neq in Hn. rewrite Hn.
  now rewrite (brace_not_type _ Hb), (brace_not_close _ Hb).
Qed.

Lemma step_block_plain st l :
  in_patch st = true ->
  startswith (strip l) "type" = false -> startswith (strip l) "}" = false ->
  step st l = Scan true (seen_name st) (changed st) (updated st ++ [l]).
Proof.
  intros Hi Ht Hc. unfold scan_line, enter. now rewrite Hi, Ht, Hc.
Qed.

Lemma step_block_type st l :
  in_patch st = true -> startswith (strip l) "type" = true ->
  step st l = Scan true (seen_name st) true (updated st ++ [rewritten patch_type l]).
Proof.
  intros Hi Ht. unfold scan_line, enter. rewrite Hi, Ht. cbn [negb andb].
  now rewrite (type_not_close _ Ht).
Qed.

Lemma step_block_close st l :
  in_patch st = true -> startswith (strip l) "}" = true ->
  step st l = Scan false (seen_name st) (changed st) (updated st ++ [l]).
Proof.
  intros Hi Hc. unfold scan_line, enter. rewrite Hi, Hc. cbn [negb andb].
  destruct (startswith (strip l) "type") eqn:Ht; [|reflexivity].
  apply type_not_close in Ht. congruence.
Qed.

(** *** Runs of lines that leave the state alone *)

Lemma run_searching ls : forall st,
  in_patch st = false -> seen_name st = false ->
  Forall (fun l => strip l <> patch_name) ls ->
  run st ls = Scan false false (changed st) (updated st ++ ls).
Proof.
  induction ls as [|l ls IH]; intros st Hi Hs Hall.
  - destruct st; cbn in *. subst. now rewrite app_nil_r.
  - inversion Hall as [|? ? Hl Hls]; subst.
    change (run st (l :: ls)) with (run (step st l) ls).
    rewrite (step_searching _ _ Hi Hs Hl), IH by easy.
    cbn [changed updated]. now rewrite <- app_assoc.
Qed.

Lemma run_armed ls : forall st,
  in_patch st = false -> seen_name st = true ->
  Forall (fun l => startswith (strip l) "{" = false) ls ->
  run st ls = Scan false true (changed st) (updated st ++ ls).
Proof.
  induction ls as [|l ls IH]; intros st Hi Hs Hall.
  - destruct st; cbn in *. subst. now rewrite app_nil_r.
  - inversion Hall as [|? ? Hl Hls]; subst.
    change (run st (l :: ls)) with (run (step st l) ls).
    rewrite (step_armed_wait _ _ Hi Hs Hl), IH by easy.
    cbn [changed updated]. now rewrite <- app_assoc.
Qed.

Lemma run_block ls : forall st,
  in_patch st = true ->
  Forall (fun l => startswith (strip l) "type" = false
                   /\ startswith (strip l) "}" = false) ls ->
  run st ls = Scan true (seen_name st) (changed st) (updated st ++ ls).
Proof.
  induction ls as [|l ls IH]; intros st Hi Hall.
  - destruct st; cbn in *. subst. now rewrite app_nil_r.
  - inversion Hall as [|? ? [Ht Hc] Hls]; subst.
    change (run st (l :: ls)) with (run (step st l) ls).
    rewrite (step_block_plain _ _ Hi Ht Hc), IH by easy.
    cbn [changed updated seen_name]. now rewrite <- app_assoc.
Qed.


(** *** The flag and the output of a whole scan *)

Lemma changed_run ls : forall st,
  changed (run st ls) = true <->
  changed st = true \/
  exists p l rest, ls = p ++ l :: rest /\ hits patch_name (run st p) l = true.
Proof.
  induction ls as [|l ls IH] using rev_ind; intros st.
  - cbn. split; [now left|]. intros [H|(p & l & rest & H & _)]; [exact H|].
    now destruct p.
  - rewrite run_snoc, step_changed, orb_true_iff, IH. split.
    + intros [H|[H|(p & l' & rest & -> & H)]].
      * right. exists ls, l, []. now split.
      * now left.
      * right. exists p, l', (rest ++ [l]). split; [|exact H].
        now rewrite <- app_assoc.
    + intros [H|(p & l' & rest & E & H)]; [now right; left|].
      destruct rest as [|r rest] using rev_ind.
      * apply app_inj_tail in E as [-> ->]. now left.
      * clear IHrest. rewrite app_comm_cons, app_assoc in E.
        apply app_inj_tail in E as [-> ->].
        right; right. now exists p, l', rest.
Qed.

(** Line by line: the output has the input's lines in the input's order,
    each either untouched or replaced by its rewritten form. *)
Lemma updated_run ls : forall st,
  exists out,
    updated (run st ls) = updated st ++ out /\
    Forall2 (fun l o => o = l \/
               (startswith (strip l) "type" = true /\ o = rewritten patch_type l))
            ls out.
Proof.
  induction ls as [|l ls IH]; intros st.
  - exists []. cbn. split; [now rewrite app_nil_r | constructor].
  - change (run st (l :: ls)) with (run (step st l) ls).
    destruct (IH (step st l)) as (out & E & F).
    exists (emitted patch_name patch_type st l :: out). split.
    + rewrite E, step_updated, <- app_assoc. reflexivity.
    + constructor; [|exact F]. unfold emitted.
      destruct (hits patch_name st l) eqn:H; [|now left].
      right. apply hits_in_patch in H as [_ H]. now split.
Qed.

(** *** Which blocks are entered *)

Lemma scan_invariant p :
  let st := scan_lines patch_name patch_type p in
  (in_patch st = true -> seen_name st = false /\ inside_block patch_name p) /\
  (in_patch st = false -> seen_name st = true -> after_name patch_name p).
Proof.
  induction p as [|l p IH] using rev_ind; [cbn; split; discriminate|].
  unfold scan_lines in *. rewrite run_snoc. cbv zeta in IH.
  set (st := run scan_init p) in *. destruct IH as [IHin IHout].
  destruct (in_patch st) eqn:Hi.
  - destruct (IHin eq_refl) as [Hs (a & nm & mid & br & body & -> & Hn & Hm & Hb & Hc)].
    destruct (startswith (strip l) "}") eqn:Hcl.
    + rewrite (step_block_close _ _ Hi Hcl), Hs. cbn. split; discriminate.
    + assert (Hin : inside_block patch_name ((a ++ nm :: mid ++ br :: body) ++ [l])).
      { exists a, nm, mid, br, (body ++ [l]). repeat split; try assumption.
        - rewrite <- !app_assoc. cbn. rewrite <- app_assoc. reflexivity.
        - apply Forall_app. split; [assumption | now constructor]. }
      destruct (startswith (strip l) "type") eqn:Ht.
      * rewrite (step_block_type _ _ Hi Ht), Hs. cbn. split; [now split | discriminate].
      * rewrite (step_block_plain _ _ Hi Ht Hcl), Hs. cbn. split; [now split | discriminate].
  - destruct (String.eqb_spec (strip l) patch_name) as [Hn|Hn].
    + rewrite (step_name _ _ Hi Hn). cbn. split; [discriminate|]. intros _ _.
      exists p, l, []. repeat split; [assumption | constructor].
    + destruct (seen_name st) eqn:Hs.
      * destruct (IHout eq_refl eq_refl) as (a & nm & mid & -> & Hnm & Hm).
        destruct (startswith (strip l) "{") eqn:Hb.
        -- rewrite (step_armed_brace _ _ Hi Hs Hn Hb). cbn. split; [|discriminate].
           intros _. split; [reflexivity|].
           exists a, nm, mid, l, []. repeat split; try assumption; [|constructor].
           rewrite <- !app_assoc. cbn. reflexivity.
        -- rewrite (step_armed_wait _ _ Hi Hs Hb). cbn. split; [discriminate|].
           intros _ _. exists a, nm, (mid ++ [l]). repeat split; try assumption.
           ++ rewrite <- !app_assoc. reflexivity.
           ++ apply Forall_app. split; [assumption | now constructor].
      * rewrite (step_searching _ _ Hi Hs Hn). cbn. split; discriminate.
Qed.

(** *** Scanning the output again *)






(** *** The output, position by position *)

Lemma updated_split p l rest : forall st,
  exists out,
    updated (run st (p ++ l :: rest))
    = updated (run st p) ++ emitted patch_name patch_type (run st p) l :: out.
Proof.
  intros st. rewrite run_app.
  change (run (run st p) (l :: rest)) with (run (step (run st p) l) rest).
  destruct (updated_run rest (step (run st p) l)) as (out & E & _).
  exists out. now rewrite E, step_updated, <- app_assoc.
Qed.

Lemma updated_length ls : forall st,
  length (updated (run st ls)) = (length (updated st) + length ls)%nat.
Proof.
  intros st. destruct (updated_run ls st) as (out & E & F).
  rewrite E, length_app. now rewrite (Forall2_length _ _ _ F).
Qed.

Lemma changed_mono ls st : changed st = true -> changed (run st ls) = true.
Proof. intros H. apply changed_run. now left. Qed.





End ScanFacts.

(** ** The corrector's state machine *)

(** C5.  Once the closing brace of an entered block is seen the machine is
    back in its searching state (neither inside a block nor armed); from
    there it rewrites nothing and stays searching as long as no line strips
    to the patch name; a line that strips to the patch name arms it whenever
    it is outside a block; while armed, lines that do not start with an
    opening brace pass through and leave it armed; an opening-brace line
    then enters the block; and a line of the output differs from the input
    only inside a block entered in this way, where it is the rewritten
    attribute line. *)
Theorem corrector_state_machine (patch_name patch_type : string) :
  (forall pre cl,
      let st := scan_lines patch_name patch_type pre in
      in_patch st = true -> startswith (strip cl) "}" = true ->
      scan_line patch_name patch_type st cl
      = Scan false false (changed st) (updated st ++ [cl])) /\
  (forall st mid,
      in_patch st = false -> seen_name st = false ->
      Forall (fun l => strip l <> patch_name) mid ->
      scan_from patch_name patch_type st mid
      = Scan false false (changed st) (updated st ++ mid)) /\
  (forall st l,
      in_patch st = false -> strip l = patch_name ->
      scan_line patch_name patch_type st l
      = Scan false true (changed st) (updated st ++ [l])) /\
  (forall st mid,
      in_patch st = false -> seen_name st = true ->
      Forall (fun l => startswith (strip l) "{" = false) mid ->
      scan_from patch_name patch_type st mid
      = Scan false true (changed st) (updated st ++ mid)) /\
  (forall st l,
      in_patch st = false -> seen_name st = true ->
      strip l <> patch_name -> startswith (strip l) "{" = true ->
      scan_line patch_name patch_type st l
      = Scan true false (changed st) (updated st ++ [l])) /\
  (forall p l rest,
      let out := updated (scan_lines patch_name patch_type (p ++ l :: rest)) in
      out !! length p <> Some l ->
      inside_block patch_name p /\
      startswith (strip l) "type" = true /\
      out !! length p = Some (rewritten patch_type l)).
Proof.
  repeat apply conj.
  - intros pre cl st Hi Hc.
    destruct (scan_invariant patch_name patch_type pre) as [Hin _].
    destruct (Hin Hi) as [Hs _]. fold st in Hs.
    rewrite (step_block_close _ _ _ _ Hi Hc). now rewrite Hs.
  - intros st mid. apply run_searching.
  - intros st l. apply step_name.
  - intros st mid. apply run_armed.
  - intros st l. apply step_armed_brace.
  - intros p l rest out Hne.
    destruct (updated_split patch_name patch_type p l rest scan_init) as [o E].
    fold (scan_lines patch_name patch_type (p ++ l :: rest)) in E.
    fold (scan_lines patch_name patch_type p) in E.
    assert (Hlen : length (updated (scan_lines patch_name patch_type p)) = length p).
    { unfold scan_lines. now rewrite updated_length. }
    assert (Hout : out !! length p
                   = Some (emitted patch_name patch_type (scan_lines patch_name patch_type p) l)).
    { unfold out. rewrite E, <- Hlen. now rewrite list_lookup_middle. }
    rewrite Hout in *. unfold emitted in *.
    destruct (hits patch_name (scan_lines patch_name patch_type p) l) eqn:H; [|congruence].
    apply hits_in_patch in H as [Hi Ht].
    destruct (scan_invariant patch_name patch_type p) as [Hin _].
    destruct (Hin Hi) as [_ Hb]. now repeat split.
Qed.

Lemma corrector_state_machine_witness :
  scan_line "symmetryPlane" "symmetry"
    (scan_lines "symmetryPlane" "symmetry" ["symmetryPlane"; "{"; "type patch;"]) "}"
  = Scan false false true ["symmetryPlane"; "{"; "type symmetry;" +:+ nl; "}"]
  /\ scan_from "symmetryPlane" "symmetry" scan_init ["inlet"; "{"; "type patch;"; "}"]
     = Scan false false false ["inlet"; "{"; "type patch;"; "}"]
  /\ scan_line "symmetryPlane" "symmetry" scan_init " symmetryPlane "
     = Scan false true false [" symmetryPlane "]
  /\ scan_from "symmetryPlane" "symmetry" (Scan false true false []) ["// note"; ""]
     = Scan false true false ["// note"; ""]
  /\ scan_line "symmetryPlane" "symmetry" (Scan false true false []) " {"
     = Scan true false false [" {"]
  /\ inside_block "symmetryPlane" ["symmetryPlane"; "{"].
Proof.
  destruct (corrector_state_machine "symmetryPlane" "symmetry")
    as (H1 & H2 & H3 & H4 & H5 & H6).
  repeat apply conj.
  - apply (H1 ["symmetryPlane"; "{"; "type patch;"] "}"); reflexivity.
  - apply (H2 scan_init ["inlet"; "{"; "type patch;"; "}"]);
      [reflexivity | reflexivity | repeat constructor; discriminate].
  - apply (H3 scan_init " symmetryPlane "); reflexivity.
  - apply (H4 (Scan false true false []) ["// note"; ""]);
      [reflexivity | reflexivity | repeat constructor].
  - apply (H5 (Scan false true false []) " {");
      [reflexivity | reflexivity | discriminate | reflexivity].
  - apply (H6 ["symmetryPlane"; "{"] "type patch;" ["}"]). discriminate.
Defined.

(** ** Failure and write-back *)


Lemma enforce_patch_type_eq d path patch_name patch_type text :
  files d !! path = Some text ->
  enforce_patch_type d path patch_name patch_type
  = let st := scan_lines patch_name patch_type (readlines text) in
    (write_back d path (updated st),
     if changed st then Returns tt
     else Raises (RuntimeError (failure_message patch_name patch_type path))).
Proof.
  intros H. unfold enforce_patch_type. rewrite H. cbv zeta.
  now destruct (changed _).
Qed.

Lemma enforce_patch_type_missing d path patch_name patch_type :
  files d !! path = None ->
  enforce_patch_type d path patch_name patch_type = (d, Raises (FileNotFoundError path)).
Proof. intros H. unfold enforce_patch_type. now rewrite H. Qed.






(** ** Correctness on a descriptor with one block of the patch *)

Lemma run_cons patch_name patch_type st l ls :
  scan_from patch_name patch_type st (l :: ls)
  = scan_from patch_name patch_type (scan_line patch_name patch_type st l) ls.
Proof. reflexivity. Qed.

(** The scan of a file made of: lines that miss the name, the name line,
    lines without an opening brace, the brace line, the block with a single
    attribute line, the closing line, and lines that miss the name. *)
Lemma scan_single_block patch_name patch_type pre nm mid br body ty body' cl rest :
  Forall (fun l => strip l <> patch_name) pre ->
  strip nm = patch_name ->
  Forall (fun l => startswith (strip l) "{" = false) mid ->
  strip br <> patch_name -> startswith (strip br) "{" = true ->
  Forall (fun l => startswith (strip l) "type" = false
                   /\ startswith (strip l) "}" = false) body ->
  startswith (strip ty) "type" = true ->
  Forall (fun l => startswith (strip l) "type" = false
                   /\ startswith (strip l) "}" = false) body' ->
  startswith (strip cl) "}" = true ->
  Forall (fun l => strip l <> patch_name) rest ->
  scan_lines patch_name patch_type
    (pre ++ nm :: mid ++ br :: body ++ ty :: body' ++ cl :: rest)
  = Scan false false true
      (pre ++ nm :: mid ++ br :: body ++ rewritten patch_type ty :: body' ++ cl :: rest).
Proof.
  intros Hpre Hnm Hmid Hbn Hbr Hbody Hty Hbody' Hcl Hrest. unfold scan_lines.
  rewrite run_app, (run_searching _ _ pre) by easy.
  rewrite run_cons, step_name by easy.
  rewrite run_app, (run_armed _ _ mid) by easy.
  rewrite run_cons, step_armed_brace by easy.
  rewrite run_app, (run_block _ _ body) by easy.
  rewrite run_cons, step_block_type by easy.
  rewrite run_app, (run_block _ _ body') by easy.
  rewrite run_cons, step_block_close by easy.
  rewrite (run_searching _ _ rest) by easy.
  cbn [changed updated seen_name scan_init app]. f_equal.
  repeat (rewrite <- app_assoc; cbn [app]). reflexivity.
Qed.

(** C1, as the code has it.  Let the lines of the file be: lines none of
    which strips to the patch name; a line that does; lines that do not
    start with an opening brace; a line that does (and is not itself the
    name); a block in which a single line starts with [type] and none but
    the last starts with a closing brace; and, after that closing line,
    lines none of which strips to the patch name.  Then the corrector
    returns normally and the file holds the same lines in the same order,
    the attribute line replaced by its own leading whitespace followed by
    [type <desired type>;] and a line feed. *)
Theorem enforce_patch_type_single_block
    (d : disk) (path patch_name patch_type text : string)
    (pre mid body body' rest : list string) (nm br ty cl : string) :
  files d !! path = Some text ->
  readlines text = pre ++ nm :: mid ++ br :: body ++ ty :: body' ++ cl :: rest ->
  Forall (fun l => strip l <> patch_name) pre ->
  strip nm = patch_name ->
  Forall (fun l => startswith (strip l) "{" = false) mid ->
  strip br <> patch_name -> startswith (strip br) "{" = true ->
  Forall (fun l => startswith (strip l) "type" = false
                   /\ startswith (strip l) "}" = false) (body ++ body') ->
  startswith (strip ty) "type" = true ->
  startswith (strip cl) "}" = true ->
  Forall (fun l => strip l <> patch_name) rest ->
  let res := enforce_patch_type d path patch_name patch_type in
  res.2 = Returns tt /\
  files res.1 !! path
  = Some (joined (pre ++ nm :: mid ++ br :: body
                    ++ (lead ty +:+ "type " +:+ patch_type +:+ ";" +:+ nl)
                    :: body' ++ cl :: rest)) /\
  ty = lead ty +:+ lstrip ty.
Proof.
  intros Hfile Hlines Hpre Hnm Hmid Hbn Hbr [Hbody Hbody']%Forall_app Hty Hcl Hrest res.
  unfold res. rewrite (enforce_patch_type_eq _ _ _ _ _ Hfile). cbv zeta.
  rewrite Hlines, scan_single_block by assumption.
  cbn [changed updated fst snd write_back files].
  rewrite (rewritten_lead _ _ Hty).
  split; [reflexivity|]. split; [apply lookup_insert_eq | apply lead_lstrip].
Qed.

Lemma enforce_patch_type_single_block_witness :
  let text := text_of ["inlet"; "{"; "    type patch;"; "}";
                       "  symmetryPlane"; "  {"; "      type patch;";
                       "      faces ((0 1 2 3));"; "  }"; ");"] in
  let d := Disk {[ "system/blockMeshDict" := text ]} [] in
  let res := enforce_patch_type d "system/blockMeshDict" "symmetryPlane" "symmetry" in
  res.2 = Returns tt /\
  files res.1 !! "system/blockMeshDict"
  = Some (text_of ["inlet"; "{"; "    type patch;"; "}";
                   "  symmetryPlane"; "  {"; "      type symmetry;";
                   "      faces ((0 1 2 3));"; "  }"; ");"]).
Proof.
  intros text d res.
  destruct (enforce_patch_type_single_block d "system/blockMeshDict" "symmetryPlane"
              "symmetry" text
              (map (fun l => l +:+ nl) ["inlet"; "{"; "    type patch;"; "}"])
              [] [] [("      faces ((0 1 2 3));" +:+ nl)] [ ");" +:+ nl]
              ("  symmetryPlane" +:+ nl) ("  {" +:+ nl) ("      type patch;" +:+ nl)
              ("  }" +:+ nl)) as (H1 & H2 & _).
  - apply lookup_singleton_eq.
  - reflexivity.
  - repeat constructor; discriminate.
  - reflexivity.
  - constructor.
  - discriminate.
  - reflexivity.
  - repeat constructor.
  - reflexivity.
  - reflexivity.
  - repeat constructor; discriminate.
  - split; [exact H1 | exact H2].
Defined.

(** C1 as stated fails: the premise holds of the block at lines 5 to 8 (a
    line that strips to the patch name, an opening brace, the attribute
    line), yet the attribute line of the block of [inlet] is rewritten as
    well, because the name on the first line had armed the scan. *)
Lemma enforce_patch_type_rewrites_foreign_block :
  let lines := map (fun l => l +:+ nl)
                 ["symmetryPlane"; "inlet"; "{"; "    type patch;"; "}";
                  "symmetryPlane"; "{"; "    type patch;"; "}"] in
  let text := joined lines in
  let d := Disk {[ "system/blockMeshDict" := text ]} [] in
  let res := enforce_patch_type d "system/blockMeshDict" "symmetryPlane" "symmetry" in
  (exists nm br ty,
      lines !! 5%nat = Some nm /\ strip nm = "symmetryPlane" /\
      lines !! 6%nat = Some br /\ startswith (strip br) "{" = true /\
      lines !! 7%nat = Some ty /\ startswith (strip ty) "type" = true) /\
  files res.1 !! "system/blockMeshDict"
  = Some (text_of ["symmetryPlane"; "inlet"; "{"; "    type symmetry;"; "}";
                   "symmetryPlane"; "{"; "    type symmetry;"; "}"]) /\
  files res.1 !! "system/blockMeshDict"
  <> Some (text_of ["symmetryPlane"; "inlet"; "{"; "    type patch;"; "}";
                    "symmetryPlane"; "{"; "    type symmetry;"; "}"]).
Proof.
  cbv zeta. split; [|split].
  - eexists _, _, _. repeat split; reflexivity.
  - vm_compute. reflexivity.
  - vm_compute. intros H. discriminate H.
Qed.

(** ** What a successful run leaves in the file *)




(** ** Running the corrector twice *)




(** ** The driver's normalisation *)

Lemma lower_nonempty s : lower s = "symmetryplane" -> s <> "".
Proof. intros H ->. discriminate H. Qed.

Lemma normalize_str s :
  s <> "" ->
  normalize (VStr s)
  = if String.eqb (lower s) "symmetryplane" then VStr "symmetry" else VStr s.
Proof.
  intros H. unfold normalize, py_or. cbn [truthy].
  apply String.eqb_neq in H. now rewrite H.
Qed.

Lemma normalize_falsy v : truthy v = false -> normalize v = VStr "symmetry".
Proof. intros H. unfold normalize, py_or. now rewrite H. Qed.

(** C6 as stated fails: the empty token is not case-insensitively equal to
    the literal, yet it is not passed through. *)
Lemma normalize_empty_token_changed :
  lower "" <> "symmetryplane" /\
  normalize (VStr "") = VStr "symmetry" /\
  normalize (VStr "") <> VStr "".
Proof. repeat split; discriminate. Qed.

(** C6, as the code has it.  The normalisation maps every token whose
    lower-case form is [symmetryplane] to [symmetry], returns every other
    non-empty token unchanged, and maps an absent token to [symmetry]; so
    [symmetryPlane] and [SymmetryPlane] give [symmetry], [wall] gives
    [wall], and [None] gives [symmetry]. *)
Theorem normalize_tokens :
  (forall s, lower s = "symmetryplane" -> normalize (VStr s) = VStr "symmetry") /\
  (forall s, s <> "" -> lower s <> "symmetryplane" -> normalize (VStr s) = VStr s) /\
  normalize VNone = VStr "symmetry" /\
  normalize (VStr "symmetryPlane") = VStr "symmetry" /\
  normalize (VStr "SymmetryPlane") = VStr "symmetry" /\
  normalize (VStr "wall") = VStr "wall".
Proof.
  split; [|split; [|repeat split]].
  - intros s H. rewrite (normalize_str _ (lower_nonempty _ H)), H. reflexivity.
  - intros s Hs H. rewrite (normalize_str _ Hs).
    apply String.eqb_neq in H. now rewrite H.
Qed.

Lemma normalize_tokens_witness :
  normalize (VStr "SYMMETRYplane") = VStr "symmetry" /\
  normalize (VStr "patch") = VStr "patch".
Proof.
  destruct normalize_tokens as (H1 & H2 & _). split.
  - apply (H1 "SYMMETRYplane"). reflexivity.
  - apply (H2 "patch"); discriminate.
Defined.

(** C9.  Whatever falsy value the configuration holds under
    [symmetry_patch_type] (none, the empty string, zero, false), the driver
    takes [symmetry] as the type, since the default is chosen by truth
    value before the comparison with [symmetryplane]; in particular a
    configuration whose [symmetry_patch_type] is the empty string gives
    [symmetry]. *)
Theorem main_sym_type_falsy (cfg : gmap string value) :
  (truthy (cfg_get cfg "symmetry_patch_type") = false ->
   main_sym_type cfg = VStr "symmetry") /\
  main_sym_type (<["symmetry_patch_type" := VStr ""]> cfg) = VStr "symmetry".
Proof.
  split.
  - apply normalize_falsy.
  - unfold main_sym_type, cfg_get. now rewrite lookup_insert_eq.
Qed.

Lemma main_sym_type_falsy_witness :
  main_sym_type {[ "symmetry_patch_type" := VInt 0; "radius" := VInt 2 ]}
  = VStr "symmetry".
Proof.
  destruct (main_sym_type_falsy {[ "symmetry_patch_type" := VInt 0; "radius" := VInt 2 ]})
    as [H _].
  apply H. vm_compute. reflexivity.
Defined.

(** ** The builder's requests *)

Section Builder.

Variable E : engine.
Variable d : disk.
Variables length radius : Q.
Variables axial_cells radial_cells tangential_cells : Z.
Variables wall_patch symmetry_patch symmetry_patch_type : string.
Variables start_patch end_patch output_path : string.
Variable debug_vtk : option string.

Local Abbreviation build wall_thickness :=
  (build_quarter_cylinder E d length radius axial_cells radial_cells tangential_cells
     wall_thickness wall_patch symmetry_patch symmetry_patch_type
     start_patch end_patch output_path debug_vtk).

(** C7.  For every cell count (positive or not): without a wall thickness
    the builder asks for one radial chop, with that count and no grading
    parameter; with a wall thickness [w] it asks for one radial chop with
    that count, the end size [w] and the cell-to-cell expansion 1.2. *)
Theorem build_quarter_cylinder_radial_chop :
  radial_chops (build None).1.1 = [Chop radial_cells None None] /\
  forall w : Q,
    radial_chops (build (Some w)).1.1
    = [Chop radial_cells (Some w) (Some (12 # 10)%Q)].
Proof. split; [reflexivity | intros w; reflexivity]. Qed.

(** C10.  The builder makes five patch assignments: the start, end, outer
    and symmetry patches, and then the default patch, named [default],
    whose kind is the wall patch name; the default patch is set right after
    the quarter-cylinder is added to the mesh and before the mesh is
    written. *)
Theorem build_quarter_cylinder_default_patch (wall_thickness : option Q) :
  let made := (build wall_thickness).1.1 in
  filter (fun r => is_patch_assignment r = true) made
  = [ set_start_patch start_patch; set_end_patch end_patch;
      set_outer_patch wall_patch; set_symmetry_patch symmetry_patch;
      set_default_patch "default" wall_patch ] /\
  exists before,
    made = before ++ [ mesh_add; set_default_patch "default" wall_patch;
                       makedirs (dirname E output_path);
                       mesh_write output_path debug_vtk ] /\
    filter (fun r => is_patch_assignment r = true) before
    = [ set_start_patch start_patch; set_end_patch end_patch;
        set_outer_patch wall_patch; set_symmetry_patch symmetry_patch ].
Proof.
  cbv zeta. split.
  - destruct wall_thickness; reflexivity.
  - eexists (_ :: _ :: _ :: _ :: _ :: _ :: _ :: [_]).
    split; [reflexivity|]. destruct wall_thickness; reflexivity.
Qed.

End Builder.

(** ** More about the corrector *)

(** X1.  The corrector touches no file but the one at its path: the set of
    existing files is the same afterwards and every other path holds what
    it held; when there is no file at the path it raises
    [FileNotFoundError] and leaves the file system, journal included, as it
    was. *)
Theorem enforce_patch_type_frame (d : disk) (path patch_name patch_type : string) :
  let res := enforce_patch_type d path patch_name patch_type in
  dom (files res.1) = dom (files d) /\
  (forall other, other <> path -> files res.1 !! other = files d !! other) /\
  (files d !! path = None -> res = (d, Raises (FileNotFoundError path))).
Proof.
  intros res. unfold res. clear res.
  destruct (files d !! path) as [text|] eqn:Hfile.
  - rewrite (enforce_patch_type_eq _ _ _ _ _ Hfile). cbv zeta. cbn [fst write_back files].
    split; [|split].
    + apply dom_insert_lookup_L. eauto.
    + intros other Hne. now apply lookup_insert_ne.
    + discriminate.
  - rewrite (enforce_patch_type_missing _ _ _ _ Hfile). cbn [fst]. now repeat split.
Qed.

Lemma enforce_patch_type_frame_witness :
  let d := Disk {[ "a" := text_of ["symmetryPlane"; "{"; "type patch;"; "}"];
                   "b" := text_of ["type patch;"] ]} [] in
  files (enforce_patch_type d "a" "symmetryPlane" "symmetry").1 !! "b"
  = Some (text_of ["type patch;"])
  /\ enforce_patch_type d "c" "symmetryPlane" "symmetry"
     = (d, Raises (FileNotFoundError "c")).
Proof.
  intros d.
  destruct (enforce_patch_type_frame d "a" "symmetryPlane" "symmetry") as (_ & H & _).
  destruct (enforce_patch_type_frame d "c" "symmetryPlane" "symmetry") as (_ & _ & H').
  split.
  - rewrite (H "b") by discriminate. vm_compute. reflexivity.
  - apply H'. vm_compute. reflexivity.
Defined.

Lemma rstrip_attribute a : rstrip (a +:+ ";" +:+ nl) = a +:+ ";".
Proof.
  induction a as [|c a IH]; [reflexivity|].
  change (rstrip (String c (a +:+ ";" +:+ nl)) = String c (a +:+ ";")).
  cbn [rstrip]. rewrite IH. now destruct a.
Qed.

(** X2.  Where the loop rewrites a line (its stripped content starts with
    [type]), [find] does not return -1: the indentation it cuts off is
    exactly the line's leading whitespace.  The new line keeps that
    leading whitespace, its stripped content is [type <desired type>;],
    and nothing else of the old line survives: two such lines with the same
    leading whitespace are rewritten to the same line. *)
Theorem rewritten_shape (patch_type line : string) :
  startswith (strip line) "type" = true ->
  0 <= find line "type" /\
  slice_to line (find line "type") = lead line /\
  lead (rewritten patch_type line) = lead line /\
  strip (rewritten patch_type line) = "type " +:+ patch_type +:+ ";" /\
  (forall line', startswith (strip line') "type" = true -> lead line' = lead line ->
                 rewritten patch_type line' = rewritten patch_type line).
Proof.
  intros Ht. pose proof (find_lead _ (startswith_strip _ _ Ht)) as Hf.
  split; [lia|]. split; [rewrite Hf; apply slice_to_lead|].
  rewrite (rewritten_lead _ _ Ht). split; [|split].
  - change ("type " +:+ patch_type +:+ ";" +:+ String LF "")
      with (String "t" ("ype " +:+ patch_type +:+ ";" +:+ String LF "")).
    now apply lead_lead_app.
  - rewrite strip_rewritten.
    change (" " +:+ patch_type +:+ ";" +:+ String LF "")
      with ((" " +:+ patch_type) +:+ ";" +:+ nl).
    now rewrite rstrip_attribute.
  - intros line' Ht' Hl. now rewrite (rewritten_lead _ _ Ht'), Hl.
Qed.

Lemma rewritten_shape_witness :
  slice_to "    type patch; // was patch" (find "    type patch; // was patch" "type")
  = "    "
  /\ strip (rewritten "symmetry" "    type patch; // was patch") = "type symmetry;".
Proof.
  destruct (rewritten_shape "symmetry" "    type patch; // was patch" eq_refl)
    as (_ & H1 & _ & H2 & _).
  split; [exact H1 | exact H2].
Defined.

(** X3.  At every point of the scan at most one of the two flags is set:
    the loop is searching, armed or inside a block, never armed and inside
    a block at once; and the scan has appended one line for every line it
    has read. *)
Theorem scan_lines_flags (patch_name patch_type : string) (lines : list string) :
  let st := scan_lines patch_name patch_type lines in
  (in_patch st && seen_name st = false) /\
  length (updated st) = length lines.
Proof.
  intros st. split.
  - destruct (in_patch st) eqn:Hi; [|reflexivity].
    destruct (scan_invariant patch_name patch_type lines) as [H _].
    destruct (H Hi) as [Hs _]. fold st in Hs. now rewrite Hs.
  - unfold st, scan_lines. now rewrite updated_length.
Qed.

(** X4.  The scan is a single pass without lookahead: what it appends for
    the first lines of a file does not depend on the lines that follow, and
    once it has rewritten a line no later line makes it fail. *)
Theorem scan_lines_prefix (patch_name patch_type : string) (p q : list string) :
  take (length p) (updated (scan_lines patch_name patch_type (p ++ q)))
  = updated (scan_lines patch_name patch_type p) /\
  (changed (scan_lines patch_name patch_type p) = true ->
   changed (scan_lines patch_name patch_type (p ++ q)) = true).
Proof.
  unfold scan_lines. rewrite run_app. split.
  - destruct (updated_run patch_name patch_type q
                (scan_from patch_name patch_type scan_init p)) as (out & -> & _).
    rewrite <- (updated_length patch_name patch_type p scan_init) at 1.
    cbn [updated scan_init length Nat.add]. apply take_app_length.
  - apply changed_mono.
Qed.

Lemma scan_lines_prefix_witness :
  changed (scan_lines "symmetryPlane" "symmetry"
             (["symmetryPlane"; "{"; "type patch;"] ++ ["}"; "inlet"])) = true.
Proof.
  apply (scan_lines_prefix "symmetryPlane" "symmetry"
           ["symmetryPlane"; "{"; "type patch;"] ["}"; "inlet"]).
  reflexivity.
Defined.

(** *** A whole block *)

Lemma run_block_retype patch_name patch_type body : forall st,
  in_patch st = true ->
  Forall (fun l => startswith (strip l) "}" = false) body ->
  scan_from patch_name patch_type st body
  = Scan true (seen_name st)
      (changed st || existsb (fun l => startswith (strip l) "type") body)
      (updated st ++ map (retype patch_type) body).
Proof.
  induction body as [|l body IH]; intros st Hi Hall.
  - destruct st; cbn in *. subst. now rewrite app_nil_r, orb_false_r.
  - inversion Hall as [|? ? Hc Hbody]; subst.
    rewrite run_cons. cbn [existsb map]. unfold retype at 1.
    destruct (startswith (strip l) "type") eqn:Ht.
    + rewrite (step_block_type _ _ _ _ Hi Ht), IH by easy.
      cbn [changed updated seen_name orb]. now rewrite orb_true_r, <- app_assoc.
    + rewrite (step_block_plain _ _ _ _ Hi Ht Hc), IH by easy.
      cbn [changed updated seen_name orb]. now rewrite <- app_assoc.
Qed.

Lemma scan_whole_block patch_name patch_type pre nm mid br body tail :
  Forall (fun l => strip l <> patch_name) pre ->
  strip nm = patch_name ->
  Forall (fun l => startswith (strip l) "{" = false) mid ->
  strip br <> patch_name -> startswith (strip br) "{" = true ->
  Forall (fun l => startswith (strip l) "}" = false) body ->
  match tail with
  | [] => True
  | cl :: rest => startswith (strip cl) "}" = true
                  /\ Forall (fun l => strip l <> patch_name) rest
  end ->
  let st := scan_lines patch_name patch_type (pre ++ nm :: mid ++ br :: body ++ tail) in
  changed st = existsb (fun l => startswith (strip l) "type") body /\
  updated st = pre ++ nm :: mid ++ br :: map (retype patch_type) body ++ tail.
Proof.
  intros Hpre Hnm Hmid Hbn Hbr Hbody Htail. unfold scan_lines.
  rewrite run_app, (run_searching _ _ pre) by easy.
  rewrite run_cons, step_name by easy.
  rewrite run_app, (run_armed _ _ mid) by easy.
  rewrite run_cons, step_armed_brace by easy.
  rewrite run_app, (run_block_retype _ _ body) by easy.
  cbn [changed updated seen_name scan_init app orb].
  destruct tail as [|cl rest].
  - cbn [scan_from foldl changed updated]. split; [reflexivity|].
    rewrite app_nil_r. repeat (rewrite <- app_assoc; cbn [app]). reflexivity.
  - destruct Htail as [Hcl Hrest].
    rewrite run_cons, step_block_close by easy.
    rewrite (run_searching _ _ rest) by easy.
    cbn [changed updated seen_name]. split; [reflexivity|].
    repeat (rewrite <- app_assoc; cbn [app]). reflexivity.
Qed.

(** X5.  Let the lines of the file be: lines none of which strips to the
    patch name; a line that does; lines that do not start with an opening
    brace; a line that does (and is not itself the name); lines none of
    which starts with a closing brace (the block); and then either nothing,
    or a line that starts with a closing brace followed by lines none of
    which strips to the patch name.  Then the corrector replaces every line
    of the block whose stripped content starts with [type], whatever
    follows these four letters, leaves all other lines as they are, and
    returns normally exactly when the block has such a line; otherwise it
    raises its error. *)
Theorem enforce_patch_type_whole_block
    (d : disk) (path patch_name patch_type text : string)
    (pre mid body tail : list string) (nm br : string) :
  files d !! path = Some text ->
  readlines text = pre ++ nm :: mid ++ br :: body ++ tail ->
  Forall (fun l => strip l <> patch_name) pre ->
  strip nm = patch_name ->
  Forall (fun l => startswith (strip l) "{" = false) mid ->
  strip br <> patch_name -> startswith (strip br) "{" = true ->
  Forall (fun l => startswith (strip l) "}" = false) body ->
  match tail with
  | [] => True
  | cl :: rest => startswith (strip cl) "}" = true
                  /\ Forall (fun l => strip l <> patch_name) rest
  end ->
  let res := enforce_patch_type d path patch_name patch_type in
  files res.1 !! path
  = Some (joined (pre ++ nm :: mid ++ br :: map (retype patch_type) body ++ tail)) /\
  (res.2 = Returns tt <-> Exists (fun l => startswith (strip l) "type" = true) body) /\
  (res.2 = Raises (RuntimeError (failure_message patch_name patch_type path))
   <-> ~ Exists (fun l => startswith (strip l) "type" = true) body).
Proof.
  intros Hfile Hlines Hpre Hnm Hmid Hbn Hbr Hbody Htail res.
  unfold res. rewrite (enforce_patch_type_eq _ _ _ _ _ Hfile). cbv zeta.
  destruct (scan_whole_block patch_name patch_type pre nm mid br body tail
              Hpre Hnm Hmid Hbn Hbr Hbody Htail) as [Hch Hup].
  rewrite Hlines, Hch, Hup. cbn [fst snd write_back files].
  split; [apply lookup_insert_eq|].
  assert (Hex : existsb (fun l => startswith (strip l) "type") body = true
                <-> Exists (fun l => startswith (strip l) "type" = true) body).
  { rewrite existsb_exists, Exists_exists. split; intros (l & Hin & Hl); exists l;
      (split; [now apply list_elem_of_In | exact Hl]). }
  destruct (existsb _ body).
  - split; split; try easy.
    + intros _. now apply Hex.
    + intros H. exfalso. apply H. now apply Hex.
  - split; split; try easy.
    + intros H. apply Hex in H. discriminate.
    + intros _ H. apply Hex in H. discriminate.
Qed.

Lemma enforce_patch_type_whole_block_witness :
  let text := text_of ["symmetryPlane"; "{"; "  type patch;"; "  typeName old;";
                       "  faces ();"] in
  let d := Disk {[ "system/blockMeshDict" := text ]} [] in
  let res := enforce_patch_type d "system/blockMeshDict" "symmetryPlane" "symmetry" in
  files res.1 !! "system/blockMeshDict"
  = Some (text_of ["symmetryPlane"; "{"; "  type symmetry;"; "  type symmetry;";
                   "  faces ();"])
  /\ res.2 = Returns tt.
Proof.
  intros text d res.
  destruct (enforce_patch_type_whole_block d "system/blockMeshDict" "symmetryPlane"
              "symmetry" text [] []
              (map (fun l => l +:+ nl) ["  type patch;"; "  typeName old;"; "  faces ();"])
              [] ("symmetryPlane" +:+ nl) ("{" +:+ nl)) as (H1 & H2 & _).
  - apply lookup_singleton_eq.
  - reflexivity.
  - constructor.
  - reflexivity.
  - constructor.
  - discriminate.
  - reflexivity.
  - repeat constructor.
  - exact I.
  - split; [exact H1|]. apply H2. apply Exists_cons_hd. reflexivity.
Defined.

(** *** One desired type after another *)

Section TwoTypes.

Variables patch_name type1 type2 : string.




End TwoTypes.



(** ** More about the driver's normalisation *)

Lemma py_or_truthy v : truthy (py_or v (VStr "symmetry")) = true.
Proof. unfold py_or. now destruct (truthy v) eqn:E. Qed.

Lemma normalize_truthy v :
  truthy v = true ->
  normalize v
  = if String.eqb (lower (str v)) "symmetryplane" then VStr "symmetry" else v.
Proof. intros H. unfold normalize, py_or. now rewrite H. Qed.

(** X7.  The normalised type is canonical: normalising it again changes
    nothing; it is never falsy (so never the empty string nor [None]); and
    its text is never [symmetryplane] in whatever casing. *)
Theorem normalize_canonical (v : value) :
  normalize (normalize v) = normalize v /\
  truthy (normalize v) = true /\
  lower (str (normalize v)) <> "symmetryplane".
Proof.
  pose proof (py_or_truthy v) as Hw.
  set (w := py_or v (VStr "symmetry")) in *.
  assert (Hn : normalize v
               = if String.eqb (lower (str w)) "symmetryplane"
                 then VStr "symmetry" else w) by reflexivity.
  rewrite Hn. clear Hn.
  destruct (String.eqb (lower (str w)) "symmetryplane") eqn:E.
  - split; [reflexivity | split; [reflexivity | discriminate]].
  - rewrite (normalize_truthy _ Hw), E. split; [reflexivity | split; [exact Hw|]].
    now apply String.eqb_neq.
Qed.

(** X8.  The normalisation returns either the configured value itself or
    the string [symmetry], and it returns [symmetry] exactly when the
    configured value is falsy, or its text is [symmetryplane] up to casing,
    or it is [symmetry] already.  (A truthy value that is not a string, such
    as a number, is handed on as it is.) *)
Theorem normalize_result (v : value) :
  (normalize v = VStr "symmetry"
   <-> truthy v = false \/ lower (str v) = "symmetryplane" \/ v = VStr "symmetry") /\
  (normalize v = VStr "symmetry" \/ normalize v = v).
Proof.
  destruct (truthy v) eqn:Hv.
  - rewrite (normalize_truthy _ Hv).
    destruct (String.eqb_spec (lower (str v)) "symmetryplane") as [E|E].
    + split; [|now left]. split; [now right; left | reflexivity].
    + split; [|now right]. split; [now right; right|].
      intros [H|[H|H]]; [discriminate | contradiction | exact H].
  - rewrite (normalize_falsy _ Hv). split; [|now left].
    split; [now left | reflexivity].
Qed.

Lemma normalize_result_witness :
  normalize (VStr "SYMMETRYPLANE") = VStr "symmetry" /\ normalize (VInt 7) = VInt 7.
Proof.
  split.
  - apply (normalize_result (VStr "SYMMETRYPLANE")). right; left. reflexivity.
  - destruct (normalize_result (VInt 7)) as [_ [H|H]]; [discriminate H | exact H].
Defined.

(** ** More about the builder *)


Section BuilderOutcome.

Variable E : engine.
Variable d : disk.
Variables length radius : Q.
Variables axial_cells radial_cells tangential_cells : Z.
Variable wall_thickness : option Q.
Variables wall_patch symmetry_patch : string.
Variables start_patch end_patch output_path : string.
Variable debug_vtk : option string.

(** The file system as the engine leaves it after writing the mesh. *)
Local Abbreviation written :=
  (serialize E
     (prepared E length radius axial_cells radial_cells tangential_cells wall_thickness
        wall_patch symmetry_patch start_patch end_patch output_path)
     output_path debug_vtk d).

Local Abbreviation built symmetry_patch_type :=
  (build_quarter_cylinder E d length radius axial_cells radial_cells tangential_cells
     wall_thickness wall_patch symmetry_patch symmetry_patch_type
     start_patch end_patch output_path debug_vtk).


(** X10.  End to end.  Let the configured symmetry type be falsy or read
    [symmetryplane] up to casing, and let the descriptor that the engine
    wrote hold one block of the symmetry patch (as in X5) with an attribute
    line in it.  Then the builder, called with the type the driver computes,
    returns the output path and the descriptor holds the same lines with
    every attribute line of that block reading [type symmetry;]. *)
Theorem build_quarter_cylinder_symmetry
    (cfg : gmap string value) (text : string)
    (pre mid body tail : list string) (nm br : string) :
  truthy (cfg_get cfg "symmetry_patch_type") = false
  \/ lower (str (cfg_get cfg "symmetry_patch_type")) = "symmetryplane" ->
  files written !! output_path = Some text ->
  readlines text = pre ++ nm :: mid ++ br :: body ++ tail ->
  Forall (fun l => strip l <> symmetry_patch) pre ->
  strip nm = symmetry_patch ->
  Forall (fun l => startswith (strip l) "{" = false) mid ->
  strip br <> symmetry_patch -> startswith (strip br) "{" = true ->
  Forall (fun l => startswith (strip l) "}" = false) body ->
  Exists (fun l => startswith (strip l) "type" = true) body ->
  match tail with
  | [] => True
  | cl :: rest => startswith (strip cl) "}" = true
                  /\ Forall (fun l => strip l <> symmetry_patch) rest
  end ->
  let res := built (str (main_sym_type cfg)) in
  res.2 = Returns output_path /\
  files res.1.2 !! output_path
  = Some (joined (pre ++ nm :: mid ++ br :: map (retype "symmetry") body ++ tail)).
Proof.
  intros Hcfg Hfile Hlines Hpre Hnm Hmid Hbn Hbr Hbody Hex Htail.
  assert (Hsym : str (main_sym_type cfg) = "symmetry").
  { unfold main_sym_type. destruct Hcfg as [H|H].
    - now rewrite (normalize_falsy _ H).
    - destruct (truthy (cfg_get cfg "symmetry_patch_type")) eqn:Hv.
      + rewrite (normalize_truthy _ Hv), H. reflexivity.
      + now rewrite (normalize_falsy _ Hv). }
  rewrite Hsym. cbv zeta. unfold build_quarter_cylinder. cbv zeta. cbn [fst snd].
  rewrite (enforce_patch_type_eq _ _ _ _ _ Hfile). cbv zeta. cbn [fst snd].
  destruct (scan_whole_block symmetry_patch "symmetry" pre nm mid br body tail
              Hpre Hnm Hmid Hbn Hbr Hbody Htail) as [Hch Hup].
  rewrite Hlines, Hch, Hup.
  assert (Hb : existsb (fun l => startswith (strip l) "type") body = true).
  { apply existsb_exists. apply Exists_exists in Hex as (l & Hin & Hl).
    exists l. split; [now apply list_elem_of_In | exact Hl]. }
  rewrite Hb. split; [reflexivity|]. cbn [write_back files]. apply lookup_insert_eq.
Qed.

End BuilderOutcome.


Lemma build_quarter_cylinder_symmetry_witness :
  let E0 := Engine (fun _ => "system")
              (fun _ out _ d0 =>
                 Disk (<[out := text_of ["inlet"; "{"; "    type patch;"; "}";
                                         "symmetryPlane"; "{"; "    type patch;"; "}"]]>
                         (files d0))
                      (journal d0)) in
  let cfg : gmap string value := {[ "symmetry_patch_type" := VStr "symmetryPlane" ]} in
  let res := build_quarter_cylinder E0 (Disk ∅ []) 1 (1 # 2) 20 8 12 None "solidCylinder"
               "symmetryPlane" (str (main_sym_type cfg)) "inlet" "topOutlet"
               "system/blockMeshDict" None in
  res.2 = Returns "system/blockMeshDict" /\
  files res.1.2 !! "system/blockMeshDict"
  = Some (text_of ["inlet"; "{"; "    type patch;"; "}";
                   "symmetryPlane"; "{"; "    type symmetry;"; "}"]).
Proof.
  intros E0 cfg res.
  apply (build_quarter_cylinder_symmetry E0 (Disk ∅ []) 1 (1 # 2) 20 8 12 None
           "solidCylinder" "symmetryPlane" "inlet" "topOutlet" "system/blockMeshDict" None
           cfg
           (text_of ["inlet"; "{"; "    type patch;"; "}";
                     "symmetryPlane"; "{"; "    type patch;"; "}"])
           (map (fun l => l +:+ nl) ["inlet"; "{"; "    type patch;"; "}"])
           [] ["    type patch;" +:+ nl] ["}" +:+ nl]
           ("symmetryPlane" +:+ nl) ("{" +:+ nl)).
  - right. vm_compute. reflexivity.
  - vm_compute. reflexivity.
  - reflexivity.
  - repeat constructor; discriminate.
  - reflexivity.
  - constructor.
  - discriminate.
  - reflexivity.
  - repeat constructor.
  - apply Exists_cons_hd. reflexivity.
  - split; [reflexivity | constructor].
Defined.

(** ** Names and types the corrector is called with *)






Lemma step_type_indep patch_name type1 type2 s1 s2 l :
  in_patch s1 = in_patch s2 -> seen_name s1 = seen_name s2 ->
  changed s1 = changed s2 ->
  in_patch (scan_line patch_name type1 s1 l) = in_patch (scan_line patch_name type2 s2 l) /\
  seen_name (scan_line patch_name type1 s1 l) = seen_name (scan_line patch_name type2 s2 l) /\
  changed (scan_line patch_name type1 s1 l) = changed (scan_line patch_name type2 s2 l).
Proof.
  intros Hi Hs Hc. unfold scan_line. rewrite <- Hi, <- Hs, <- Hc.
  destruct (enter patch_name (in_patch s1) (seen_name s1) (strip l)) as [ip sn].
  now destruct (ip && startswith (strip l) "type").
Qed.

Lemma run_type_indep patch_name type1 type2 ls : forall s1 s2,
  in_patch s1 = in_patch s2 -> seen_name s1 = seen_name s2 ->
  changed s1 = changed s2 ->
  changed (scan_from patch_name type1 s1 ls) = changed (scan_from patch_name type2 s2 ls) /\
  Forall2 (fun o1 o2 => o1 = o2 \/ exists l,
             startswith (strip l) "type" = true /\
             o1 = rewritten type1 l /\ o2 = rewritten type2 l)
    (drop (length (updated s1)) (updated (scan_from patch_name type1 s1 ls)))
    (drop (length (updated s2)) (updated (scan_from patch_name type2 s2 ls))).
Proof.
  induction ls as [|l ls IH]; intros s1 s2 Hi Hs Hc.
  - cbn. rewrite !drop_all. split; [exact Hc | constructor].
  - rewrite !run_cons.
    destruct (step_type_indep patch_name type1 type2 s1 s2 l Hi Hs Hc) as (E1 & E2 & E3).
    destruct (IH _ _ E1 E2 E3) as [C F]. split; [exact C|].
    destruct (updated_run patch_name type1 ls (scan_line patch_name type1 s1 l))
      as (o1 & U1 & _).
    destruct (updated_run patch_name type2 ls (scan_line patch_name type2 s2 l))
      as (o2 & U2 & _).
    rewrite U1, U2 in *. rewrite !step_updated in *.
    rewrite !drop_app_length in F.
    rewrite <- !app_assoc. rewrite !drop_app_length. cbn [app].
    constructor; [|exact F].
    unfold emitted. assert (Hh : hits patch_name s2 l = hits patch_name s1 l).
    { unfold hits. now rewrite Hi, Hs. }
    rewrite Hh. destruct (hits patch_name s1 l) eqn:H; [|now left].
    right. exists l. apply hits_in_patch in H as [_ H]. now repeat split.
Qed.

(** X12.  Which lines the corrector rewrites, and whether it fails, depends
    on the file and the patch name only, not on the desired type: for two
    desired types the two runs end alike (both return or both raise), and
    their outputs agree line by line except that, where one holds a line
    rewritten for its type, the other holds the same line rewritten for the
    other type. *)
Theorem enforce_patch_type_type_independent
    (d : disk) (path patch_name type1 type2 text : string) :
  files d !! path = Some text ->
  let res1 := enforce_patch_type d path patch_name type1 in
  let res2 := enforce_patch_type d path patch_name type2 in
  (res1.2 = Returns tt <-> res2.2 = Returns tt) /\
  exists out1 out2,
    files res1.1 !! path = Some (joined out1) /\
    files res2.1 !! path = Some (joined out2) /\
    Forall2 (fun o1 o2 => o1 = o2 \/ exists l,
               startswith (strip l) "type" = true /\
               o1 = rewritten type1 l /\ o2 = rewritten type2 l)
      out1 out2.
Proof.
  intros Hfile res1 res2. unfold res1, res2.
  rewrite !(enforce_patch_type_eq _ _ _ _ _ Hfile). cbv zeta. cbn [fst snd].
  destruct (run_type_indep patch_name type1 type2 (readlines text) scan_init scan_init
              eq_refl eq_refl eq_refl) as [C F].
  fold (scan_lines patch_name type1 (readlines text)) in C, F.
  fold (scan_lines patch_name type2 (readlines text)) in C, F.
  cbn [updated scan_init length drop] in F. rewrite C. split.
  - destruct (changed (scan_lines patch_name type2 (readlines text)));
      [split; reflexivity | split; discriminate].
  - eexists _, _. split; [apply lookup_insert_eq|]. split; [apply lookup_insert_eq|].
    exact F.
Qed.

Lemma enforce_patch_type_type_independent_witness :
  let text := text_of ["symmetryPlane"; "{"; "    type patch;"; "}"] in
  let d := Disk {[ "system/blockMeshDict" := text ]} [] in
  (enforce_patch_type d "system/blockMeshDict" "symmetryPlane" "wall").2 = Returns tt.
Proof.
  intros text d.
  apply (enforce_patch_type_type_independent d "system/blockMeshDict" "symmetryPlane"
           "wall" "symmetry" text (lookup_singleton_eq _ _)).
  vm_compute. reflexivity.
Defined.
